(** * The espeak JNI bridge (app/src/main/cpp/espeak_jni.cpp)

    A shallow embedding of the three native methods of
    [EspeakPhonemizerNative] and of the part of the JNI environment they
    use, followed by the properties of the bridge.

    The natives are written in a state monad over the process image
    (the two file-level globals, the platform log, the UTF buffers the
    JVM has handed out) layered over an error monad.  They are given
    twice: first as they run when the JVM hands out the characters of
    every string argument, which is the path the file is written for,
    and then, in [OnJvm], over a JVM that may hand back a null pointer,
    which the file never tests for. *)

From Stdlib Require Import String Ascii List Bool Arith Lia.
From ExtLib Require Import Structures.Monad Structures.MonadState
  Structures.MonadExc.
From ExtLib Require Import Data.Monads.StateMonad Data.Monads.EitherMonad.
Import ListNotations.
Import MonadNotation.
Local Open Scope string_scope.
Local Open Scope monad_scope.

#[local] Existing Instance Monad_stateT.

(** ** Platform types *)

(** [android/log.h]: the two priorities the file logs at. *)
Inductive android_LogPriority : Type :=
| ANDROID_LOG_INFO
| ANDROID_LOG_ERROR.

(** One call of [__android_log_print]: priority, tag, format, and the
    arguments of the format's [%s] directives in order. *)
Record LogLine : Type := mkLogLine
  { log_prio : android_LogPriority;
    log_tag : string;
    log_fmt : string;
    log_args : list string }.

(** [#define TAG "EspeakJNI"] *)
Definition TAG : string := "EspeakJNI".

(** [jboolean] and [JNI_TRUE]. *)
Definition jboolean : Type := bool.
Definition JNI_TRUE : jboolean := true.

(** A [jstring] argument is a reference to a live Java string; it is
    modelled by the characters [GetStringUTFChars] yields for it.  In
    return position a [jstring] may be the null reference. *)
Definition jstring : Type := string.
Definition nullptr : option jstring := None.

(** A [const char*] obtained from the JVM: the address that identifies
    the buffer and the characters before its terminator. *)
Record utf_chars : Type := mkUtf
  { c_addr : nat;
    c_chars : string }.

(** [std::string(p)]: a copy of the characters of the C string. *)
Definition std_string (p : utf_chars) : string := c_chars p.

(** ** The process image *)

Record World : Type := mkWorld
  { g_initialized : bool;
    g_dataPath : string;
    logcat : list LogLine;
    jni_next : nat;
    jni_live : list nat }.

(** [static bool g_initialized = false; static std::string g_dataPath;] *)
Definition initial_world : World :=
  {| g_initialized := false;
     g_dataPath := "";
     logcat := [];
     jni_next := 0;
     jni_live := [] |}.

Definition set_g_initialized (b : bool) (w : World) : World :=
  {| g_initialized := b;
     g_dataPath := g_dataPath w;
     logcat := logcat w;
     jni_next := jni_next w;
     jni_live := jni_live w |}.

Definition set_g_dataPath (p : string) (w : World) : World :=
  {| g_initialized := g_initialized w;
     g_dataPath := p;
     logcat := logcat w;
     jni_next := jni_next w;
     jni_live := jni_live w |}.

Definition add_log (l : LogLine) (w : World) : World :=
  {| g_initialized := g_initialized w;
     g_dataPath := g_dataPath w;
     logcat := logcat w ++ [l];
     jni_next := jni_next w;
     jni_live := jni_live w |}.

Definition set_jni (next : nat) (live : list nat) (w : World) : World :=
  {| g_initialized := g_initialized w;
     g_dataPath := g_dataPath w;
     logcat := logcat w;
     jni_next := next;
     jni_live := live |}.

(** The engine handle of the bridge: the readiness flag and the data
    path, the two globals of the file. *)
Definition engine_handle (w : World) : bool * string :=
  (g_initialized w, g_dataPath w).

(** ** The native monad *)

(** The fatal outcomes a native can provoke: the JVM aborts the process
    when it is handed a UTF buffer it did not give out (or has already
    taken back), and [std::string(p)] on a null [p] does not return
    (an exception no frame of the file catches, or a fault). *)
Inductive Fatal : Type :=
| JniAbort_unknown_buffer (addr : nat)
| Cxx_string_from_null.

Definition native : Type -> Type := stateT World (sum Fatal).

Definition run {A : Type} (c : native A) (w : World) : Fatal + A * World :=
  runStateT c w.

(** ** The JNI environment and the log macros *)

Module Jni.

(** Taking a buffer back: the first live entry with that address is
    dropped; there is none when the address is not live. *)
Fixpoint release_buffer (a : nat) (live : list nat) : option (list nat) :=
  match live with
  | [] => None
  | b :: rest =>
      if Nat.eqb a b then Some rest
      else option_map (cons b) (release_buffer a rest)
  end.

(** [env->GetStringUTFChars(s, nullptr)]: a fresh buffer holding the
    characters of [s], live until released. *)
Definition GetStringUTFChars (s : jstring) : native utf_chars :=
  w <- get ;;
  put (set_jni (S (jni_next w)) (jni_next w :: jni_live w) w) ;;
  ret {| c_addr := jni_next w; c_chars := s |}.

(** [env->ReleaseStringUTFChars(s, p)]. *)
Definition ReleaseStringUTFChars (s : jstring) (p : utf_chars)
  : native unit :=
  w <- get ;;
  match release_buffer (c_addr p) (jni_live w) with
  | Some live => put (set_jni (jni_next w) live w)
  | None => raise (JniAbort_unknown_buffer (c_addr p))
  end.

End Jni.

(** [__android_log_print(prio, TAG, fmt, args...)] *)
Definition android_log_print (prio : android_LogPriority) (tag fmt : string)
    (args : list string) : native unit :=
  w <- get ;;
  put (add_log (mkLogLine prio tag fmt args) w).

(** [#define LOGI(...)] and [#define LOGE(...)] *)
Definition LOGI (fmt : string) (args : list string) : native unit :=
  android_log_print ANDROID_LOG_INFO TAG fmt args.
Definition LOGE (fmt : string) (args : list string) : native unit :=
  android_log_print ANDROID_LOG_ERROR TAG fmt args.

(** ** The natives *)

(** [Java_com_example_nlp_1final_phonemizer_EspeakPhonemizerNative_<m>];
    the module stands for the mangled prefix. *)
Module EspeakPhonemizerNative.

Import Jni.

Definition nativeInit (dataPath : jstring) : native jboolean :=
  path <- GetStringUTFChars dataPath ;;
  w <- get ;;
  put (set_g_dataPath (std_string path) w) ;;
  ReleaseStringUTFChars dataPath path ;;
  p <- gets g_dataPath ;;
  LOGI "Espeak mock init with data path: %s" [p] ;;
  w <- get ;;
  put (set_g_initialized true w) ;;
  ret JNI_TRUE.

(** The locals of [nativePhonemize] the properties speak about:
    [result] is set once the function has got past the readiness
    test. *)
Record PhonemizeFrame : Type := mkFrame
  { result : option string;
    returned : option jstring }.

(** The body of [nativePhonemize], with its frame at the return. *)
Definition nativePhonemize_body (text voice : jstring)
  : native PhonemizeFrame :=
  ready <- gets g_initialized ;;
  if negb ready then
    LOGE "Espeak not initialized" [] ;;
    ret {| result := None; returned := nullptr |}
  else
    inputText <- GetStringUTFChars text ;;
    voiceId <- GetStringUTFChars voice ;;
    LOGI "Mock phonemize: text='%s', voice='%s'"
         [c_chars inputText; c_chars voiceId] ;;
    let result := std_string inputText in
    ReleaseStringUTFChars text inputText ;;
    ReleaseStringUTFChars voice voiceId ;;
    ret {| result := Some result; returned := nullptr |}.

Definition nativePhonemize (text voice : jstring)
  : native (option jstring) :=
  frame <- nativePhonemize_body text voice ;;
  ret (returned frame).

Definition nativeCleanup : native unit :=
  LOGI "Espeak cleanup" [] ;;
  w <- get ;;
  put (set_g_initialized false w).

End EspeakPhonemizerNative.

Import EspeakPhonemizerNative.

(** ** The host side

    The managed runtime calls the three natives in any order, any number
    of times; a call session is a list of calls, answered one by one. *)

Inductive Call : Type :=
| CallInit (dataPath : jstring)
| CallPhonemize (text voice : jstring)
| CallCleanup.

Inductive Ret : Type :=
| RetBoolean (b : jboolean)
| RetString (s : option jstring)
| RetVoid.

Definition dispatch (c : Call) : native Ret :=
  match c with
  | CallInit dataPath => b <- nativeInit dataPath ;; ret (RetBoolean b)
  | CallPhonemize text voice =>
      s <- nativePhonemize text voice ;; ret (RetString s)
  | CallCleanup => nativeCleanup ;; ret RetVoid
  end.

Fixpoint session (cs : list Call) : native (list Ret) :=
  match cs with
  | [] => ret []
  | c :: rest =>
      r <- dispatch c ;;
      rs <- session rest ;;
      ret (r :: rs)
  end.

Definition is_init (c : Call) : bool :=
  match c with
  | CallInit _ => true
  | _ => false
  end.

(** What the host gets back from a call. *)
Definition answer (c : Call) : Ret :=
  match c with
  | CallInit _ => RetBoolean JNI_TRUE
  | CallPhonemize _ _ => RetString nullptr
  | CallCleanup => RetVoid
  end.

(** What a call does to the engine handle. *)
Definition handle_after (h : bool * string) (c : Call) : bool * string :=
  match c with
  | CallInit dataPath => (true, dataPath)
  | CallPhonemize _ _ => h
  | CallCleanup => (false, snd h)
  end.

Definition no_init (cs : list Call) : bool :=
  forallb (fun c => negb (is_init c)) cs.

(** [std::tolower] on the characters of a string, in the C locale: the
    lowercased text the comment above [result] speaks of.  No line of the
    source applies it. *)
Definition tolower (c : ascii) : ascii :=
  let n := nat_of_ascii c in
  if ((65 <=? n) && (n <=? 90))%nat then ascii_of_nat (n + 32) else c.

Fixpoint lowercased (s : string) : string :=
  match s with
  | EmptyString => EmptyString
  | String c rest => String (tolower c) (lowercased rest)
  end.

(** The error diagnostics in the log. *)
Definition is_error (l : LogLine) : bool :=
  match log_prio l with
  | ANDROID_LOG_ERROR => true
  | ANDROID_LOG_INFO => false
  end.

Definition error_lines (w : World) : list LogLine :=
  filter is_error (logcat w).

(** ** The natives over a JVM that may refuse

    [GetStringUTFChars] returns a null pointer when it is given the
    null reference and when the JVM cannot provide the buffer.  The
    file passes what it gets to [std::string] untested (lines 19-20,
    44 and 57), so the natives are written out once more over a host
    that can do both. *)

(** The process image together with what the JVM will answer to the
    coming requests for the characters of a string: [true] for a
    buffer, [false] for the null pointer, and a buffer once the list is
    used up. *)
Record Jvm : Type := mkJvm
  { image : World;
    utf_outcomes : list bool }.

Definition hosted : Type -> Type := stateT Jvm (sum Fatal).

Definition run_jvm {A : Type} (c : hosted A) (j : Jvm) : Fatal + A * Jvm :=
  runStateT c j.

(** A step that only concerns the process image. *)
Definition on_image {A : Type} (c : native A) : hosted A :=
  mkStateT (fun j : Jvm =>
    match run c (image j) with
    | inl f => inl f
    | inr (a, w) => inr (a, {| image := w; utf_outcomes := utf_outcomes j |})
    end).

Definition jvm_obliging (j : Jvm) : bool :=
  forallb (fun ok : bool => ok) (utf_outcomes j).

Module OnJvm.

(** [env->GetStringUTFChars(s, nullptr)] for a reference that may be
    null and a JVM that may refuse. *)
Definition GetStringUTFChars (s : option jstring)
  : hosted (option utf_chars) :=
  match s with
  | None => ret None
  | Some chars =>
      j <- get ;;
      put {| image := image j; utf_outcomes := tl (utf_outcomes j) |} ;;
      match utf_outcomes j with
      | false :: _ => ret None
      | _ => p <- on_image (Jni.GetStringUTFChars chars) ;; ret (Some p)
      end
  end.

(** [env->ReleaseStringUTFChars(s, p)]; nothing is taken back for a
    null [p].  The reference [s] plays no part. *)
Definition ReleaseStringUTFChars (s : option jstring)
    (p : option utf_chars) : hosted unit :=
  match p with
  | None => ret tt
  | Some b => on_image (Jni.ReleaseStringUTFChars (c_chars b) b)
  end.

(** [std::string(p)] for a pointer that may be null. *)
Definition std_string (p : option utf_chars) : hosted string :=
  match p with
  | Some b => ret (c_chars b)
  | None => raise Cxx_string_from_null
  end.

(** What the platform's formatter prints for a [%s] argument. *)
Definition percent_s (p : option utf_chars) : string :=
  match p with
  | Some b => c_chars b
  | None => "(null)"
  end.

Definition nativeInit (dataPath : option jstring) : hosted jboolean :=
  path <- GetStringUTFChars dataPath ;;
  copy <- std_string path ;;
  on_image (w <- get ;; put (set_g_dataPath copy w)) ;;
  ReleaseStringUTFChars dataPath path ;;
  on_image (p <- gets g_dataPath ;;
            LOGI "Espeak mock init with data path: %s" [p] ;;
            w <- get ;;
            put (set_g_initialized true w)) ;;
  ret JNI_TRUE.

Definition nativePhonemize (text voice : option jstring)
  : hosted (option jstring) :=
  ready <- on_image (gets g_initialized) ;;
  if negb ready then
    on_image (LOGE "Espeak not initialized" []) ;;
    ret nullptr
  else
    inputText <- GetStringUTFChars text ;;
    voiceId <- GetStringUTFChars voice ;;
    on_image (LOGI "Mock phonemize: text='%s', voice='%s'"
                   [percent_s inputText; percent_s voiceId]) ;;
    result <- std_string inputText ;;
    ReleaseStringUTFChars text inputText ;;
    ReleaseStringUTFChars voice voiceId ;;
    ret nullptr.

Definition nativeCleanup : hosted unit :=
  on_image (LOGI "Espeak cleanup" [] ;;
            w <- get ;;
            put (set_g_initialized false w)).

(** The host's calls, with references that may be null. *)
Inductive JCall : Type :=
| JInit (dataPath : option jstring)
| JPhonemize (text voice : option jstring)
| JCleanup.

Definition dispatch (c : JCall) : hosted Ret :=
  match c with
  | JInit dataPath => b <- nativeInit dataPath ;; ret (RetBoolean b)
  | JPhonemize text voice =>
      s <- nativePhonemize text voice ;; ret (RetString s)
  | JCleanup => nativeCleanup ;; ret RetVoid
  end.

Fixpoint session (cs : list JCall) : hosted (list Ret) :=
  match cs with
  | [] => ret []
  | c :: rest =>
      r <- dispatch c ;;
      rs <- session rest ;;
      ret (r :: rs)
  end.

(** A call whose strings are all there. *)
Definition of_call (c : Call) : JCall :=
  match c with
  | CallInit dataPath => JInit (Some dataPath)
  | CallPhonemize text voice => JPhonemize (Some text) (Some voice)
  | CallCleanup => JCleanup
  end.

End OnJvm.

(** Reading a session: which calls are conversions, which sessions have
    no cleanup, the calls left once the conversions are taken out, and
    how many conversions of a session arrive while the flag is down. *)
Definition is_phonemize (c : Call) : bool :=
  match c with
  | CallPhonemize _ _ => true
  | _ => false
  end.

Definition is_cleanup (c : Call) : bool :=
  match c with
  | CallCleanup => true
  | _ => false
  end.

Definition no_cleanup (cs : list Call) : bool :=
  forallb (fun c => negb (is_cleanup c)) cs.

Definition lifecycle (cs : list Call) : list Call :=
  filter (fun c => negb (is_phonemize c)) cs.

Fixpoint rejected (ready : bool) (cs : list Call) : nat :=
  match cs with
  | [] => 0
  | CallInit _ :: rest => rejected true rest
  | CallPhonemize _ _ :: rest =>
      (if ready then 0 else 1) + rejected ready rest
  | CallCleanup :: rest => rejected false rest
  end.

(** ** What each native does to the process image *)

Section Runs.

Variable w : World.

Lemma release_buffer_head (a : nat) (live : list nat) :
  Jni.release_buffer a (a :: live) = Some live.
Proof. simpl. now rewrite Nat.eqb_refl. Qed.

Lemma release_buffer_second (a : nat) (live : list nat) :
  Jni.release_buffer a (S a :: a :: live) = Some (S a :: live).
Proof.
  simpl. rewrite Nat.eqb_refl.
  destruct (Nat.eqb_spec a (S a)) as [E | _]; [lia | reflexivity].
Qed.

Lemma nativeInit_run (dataPath : jstring) :
  run (nativeInit dataPath) w =
  inr (JNI_TRUE,
       {| g_initialized := true;
          g_dataPath := dataPath;
          logcat := logcat w ++
            [mkLogLine ANDROID_LOG_INFO TAG
               "Espeak mock init with data path: %s" [dataPath]];
          jni_next := S (jni_next w);
          jni_live := jni_live w |}).
Proof.
  unfold run, nativeInit. cbn.
  rewrite Nat.eqb_refl. reflexivity.
Qed.

Lemma nativePhonemize_body_run_not_ready (text voice : jstring) :
  g_initialized w = false ->
  run (nativePhonemize_body text voice) w =
  inr ({| result := None; returned := nullptr |},
       add_log (mkLogLine ANDROID_LOG_ERROR TAG
                  "Espeak not initialized" []) w).
Proof.
  intros Hflag. unfold run, nativePhonemize_body. cbn.
  rewrite Hflag. reflexivity.
Qed.

Lemma nativePhonemize_body_run_ready (text voice : jstring) :
  g_initialized w = true ->
  run (nativePhonemize_body text voice) w =
  inr ({| result := Some text; returned := nullptr |},
       {| g_initialized := true;
          g_dataPath := g_dataPath w;
          logcat := logcat w ++
            [mkLogLine ANDROID_LOG_INFO TAG
               "Mock phonemize: text='%s', voice='%s'" [text; voice]];
          jni_next := S (S (jni_next w));
          jni_live := jni_live w |}).
Proof.
  intros Hflag. unfold run, nativePhonemize_body. cbn.
  rewrite Hflag. cbn.
  rewrite Nat.eqb_refl.
  destruct (Nat.eqb_spec (jni_next w) (S (jni_next w))) as [E | _];
    [lia |].
  cbn. rewrite Nat.eqb_refl. cbn.
  unfold set_jni, add_log. cbn. rewrite Hflag. reflexivity.
Qed.

Lemma nativeCleanup_run :
  run nativeCleanup w =
  inr (tt,
       {| g_initialized := false;
          g_dataPath := g_dataPath w;
          logcat := logcat w ++
            [mkLogLine ANDROID_LOG_INFO TAG "Espeak cleanup" []];
          jni_next := jni_next w;
          jni_live := jni_live w |}).
Proof. reflexivity. Qed.

(** Binding a run that is known. *)
Lemma run_bind {A B : Type} (c : native A) (k : A -> native B)
    (a : A) (w1 : World) :
  run c w = inr (a, w1) ->
  run (x <- c ;; k x) w = run (k a) w1.
Proof. unfold run. cbn. intros ->. reflexivity. Qed.

Lemma nativePhonemize_run (text voice : jstring) :
  exists w1 : World,
    run (nativePhonemize text voice) w = inr (nullptr, w1) /\
    engine_handle w1 = engine_handle w /\
    jni_live w1 = jni_live w.
Proof.
  unfold nativePhonemize.
  destruct (g_initialized w) eqn:Hflag.
  - eexists. rewrite (run_bind _ _ _ _
      (nativePhonemize_body_run_ready text voice Hflag)).
    split; [reflexivity |].
    unfold engine_handle. cbn. now rewrite Hflag.
  - eexists. rewrite (run_bind _ _ _ _
      (nativePhonemize_body_run_not_ready text voice Hflag)).
    split; [reflexivity |]. split; reflexivity.
Qed.

End Runs.

(** ** Sessions *)

Section Sessions.

Lemma dispatch_run (w : World) (c : Call) :
  exists w1 : World,
    run (dispatch c) w = inr (answer c, w1) /\
    engine_handle w1 = handle_after (engine_handle w) c /\
    jni_live w1 = jni_live w.
Proof.
  destruct c as [dataPath | text voice |]; cbn [dispatch answer].
  - eexists. rewrite (run_bind _ _ _ _ _ (nativeInit_run w dataPath)).
    repeat split.
  - destruct (nativePhonemize_run w text voice) as (w1 & Hrun & Hh & Hl).
    exists w1. rewrite (run_bind _ _ _ _ _ Hrun). repeat split; assumption.
  - eexists. rewrite (run_bind _ _ _ _ _ (nativeCleanup_run w)).
    repeat split.
Qed.

Lemma session_run (cs : list Call) :
  forall w : World,
  exists w1 : World,
    run (session cs) w = inr (map answer cs, w1) /\
    engine_handle w1 = fold_left handle_after cs (engine_handle w) /\
    jni_live w1 = jni_live w.
Proof.
  induction cs as [| c rest IH]; intros w.
  - exists w. repeat split.
  - destruct (dispatch_run w c) as (w1 & Hc & Hh1 & Hl1).
    destruct (IH w1) as (w2 & Hrest & Hh2 & Hl2).
    exists w2. cbn [session map fold_left].
    rewrite (run_bind _ _ _ _ _ Hc), (run_bind _ _ _ _ _ Hrest).
    repeat split.
    + now rewrite Hh2, Hh1.
    + now rewrite Hl2, Hl1.
Qed.

(** Without an initialize among the calls the path stays, and the flag
    can only go down. *)
Lemma fold_no_init (cs : list Call) :
  forall h : bool * string,
    no_init cs = true ->
    snd (fold_left handle_after cs h) = snd h /\
    (fst h = false -> fst (fold_left handle_after cs h) = false).
Proof.
  induction cs as [| c rest IH]; intros h Hno; [now split |].
  cbn in Hno. apply andb_true_iff in Hno as [Hc Hrest].
  cbn [fold_left].
  destruct (IH (handle_after h c) Hrest) as [Hpath Hflag].
  destruct c as [dataPath | text voice |]; cbn in Hc; try discriminate.
  - split; assumption.
  - split; [assumption | intros _; now apply Hflag].
Qed.

End Sessions.

(** ** Readiness *)

Section Readiness.

Lemma initial_world_not_ready : g_initialized initial_world = false.
Proof. reflexivity. Qed.

Lemma nativeCleanup_not_ready (w : World) :
  exists w1 : World,
    run nativeCleanup w = inr (tt, w1) /\ g_initialized w1 = false.
Proof. eexists. rewrite nativeCleanup_run. split; reflexivity. Qed.

Lemma not_ready_kept (w : World) (cs : list Call) :
  g_initialized w = false ->
  no_init cs = true ->
  exists w1 : World,
    run (session cs) w = inr (map answer cs, w1) /\
    g_initialized w1 = false.
Proof.
  intros Hflag Hno.
  destruct (session_run cs w) as (w1 & Hrun & Hh & _).
  exists w1. split; [assumption |].
  destruct (fold_no_init cs (engine_handle w) Hno) as [_ Hdown].
  change (g_initialized w1) with (fst (engine_handle w1)).
  rewrite Hh. now apply Hdown.
Qed.

(** C1.  While the readiness flag is false, [nativePhonemize] returns
    the null reference and leaves the engine handle as it found it; the
    one thing it does is log the error.  The flag is false in the
    initial image and in the image any [nativeCleanup] leaves
    ([initial_world_not_ready], [nativeCleanup_not_ready]), and it
    stays false over any calls [cs] of the host among which there is no
    [nativeInit]: after them the conversion still answers null. *)
Theorem phonemize_absent_while_not_ready
    (w : World) (cs : list Call) (text voice : jstring) :
  g_initialized w = false ->
  no_init cs = true ->
  exists w1 w2 : World,
    run (session cs) w = inr (map answer cs, w1) /\
    g_initialized w1 = false /\
    run (nativePhonemize text voice) w1 = inr (nullptr, w2) /\
    engine_handle w2 = engine_handle w1 /\
    logcat w2 =
      (logcat w1 ++
       [mkLogLine ANDROID_LOG_ERROR TAG "Espeak not initialized" []])%list.
Proof.
  intros Hflag Hno.
  destruct (not_ready_kept w cs Hflag Hno) as (w1 & Hrun & Hflag1).
  exists w1. eexists. split; [exact Hrun |]. split; [exact Hflag1 |].
  unfold nativePhonemize.
  rewrite (run_bind _ _ _ _ _
    (nativePhonemize_body_run_not_ready w1 text voice Hflag1)).
  repeat split.
Qed.

Lemma phonemize_absent_while_not_ready_witness :
  (g_initialized initial_world = false /\
   no_init [CallPhonemize "hi" "en-us"; CallCleanup] = true) /\
  exists w1 w2 : World,
    run (session [CallPhonemize "hi" "en-us"; CallCleanup]) initial_world =
      inr (map answer [CallPhonemize "hi" "en-us"; CallCleanup], w1) /\
    g_initialized w1 = false /\
    run (nativePhonemize "hello" "en-us") w1 = inr (nullptr, w2) /\
    engine_handle w2 = engine_handle w1 /\
    logcat w2 =
      (logcat w1 ++
       [mkLogLine ANDROID_LOG_ERROR TAG "Espeak not initialized" []])%list.
Proof.
  split; [split; reflexivity |].
  apply (phonemize_absent_while_not_ready initial_world
           [CallPhonemize "hi" "en-us"; CallCleanup] "hello" "en-us");
    reflexivity.
Defined.

(** C2.  [nativePhonemize] returns the null reference for every text,
    every voice and every process image, ready or not. *)
Theorem phonemize_always_absent (w : World) (text voice : jstring) :
  exists w1 : World,
    run (nativePhonemize text voice) w = inr (nullptr, w1).
Proof.
  destruct (nativePhonemize_run w text voice) as (w1 & Hrun & _).
  now exists w1.
Qed.

End Readiness.

(** ** Initialisation *)

Section Initialisation.

(** C3.  [nativeInit dataPath] returns [JNI_TRUE] from every process
    image and leaves the handle ready with [dataPath] as its path; a
    second [nativeInit] on the image the first one left succeeds too
    and the handle then holds the second path. *)
Theorem init_records_path (w : World) (dataPath again : jstring) :
  exists w1 w2 : World,
    run (nativeInit dataPath) w = inr (JNI_TRUE, w1) /\
    g_dataPath w1 = dataPath /\
    g_initialized w1 = true /\
    run (nativeInit again) w1 = inr (JNI_TRUE, w2) /\
    g_dataPath w2 = again /\
    g_initialized w2 = true.
Proof.
  do 2 eexists.
  split; [apply nativeInit_run |].
  split; [reflexivity |]. split; [reflexivity |].
  split; [apply nativeInit_run |].
  split; reflexivity.
Qed.

End Initialisation.

(** ** Cleanup *)

Section Cleanup.

Lemma fold_cleanups (n : nat) :
  forall h : bool * string,
    fold_left handle_after (repeat CallCleanup (S n)) h = (false, snd h).
Proof.
  induction n as [| n IH]; intros h; [reflexivity |].
  change (repeat CallCleanup (S (S n)))
    with (CallCleanup :: repeat CallCleanup (S n)).
  cbn [fold_left]. now rewrite IH.
Qed.

(** C4.  [nativeCleanup] returns from every process image, the initial
    one included, and leaves the readiness flag false; so does any
    number [S n] of cleanups in a row. *)
Theorem cleanup_clears_flag (w : World) (n : nat) :
  (exists w1 : World,
     run nativeCleanup w = inr (tt, w1) /\ g_initialized w1 = false) /\
  (exists w1 : World,
     run nativeCleanup initial_world = inr (tt, w1) /\
     g_initialized w1 = false) /\
  (exists wn : World,
     run (session (repeat CallCleanup (S n))) w =
       inr (repeat RetVoid (S n), wn) /\
     g_initialized wn = false).
Proof.
  split; [apply nativeCleanup_not_ready |].
  split; [apply nativeCleanup_not_ready |].
  destruct (session_run (repeat CallCleanup (S n)) w)
    as (wn & Hrun & Hh & _).
  exists wn. rewrite map_repeat in Hrun. split; [exact Hrun |].
  change (g_initialized wn) with (fst (engine_handle wn)).
  now rewrite Hh, fold_cleanups.
Qed.

(** C5, as the code has it.  [nativeCleanup] puts the readiness flag
    back to its initial value and leaves the data path as it was: the
    handle after cleanup is [(false, g_dataPath w)]. *)
Theorem cleanup_resets_flag_only (w : World) :
  exists w1 : World,
    run nativeCleanup w = inr (tt, w1) /\
    g_initialized w1 = g_initialized initial_world /\
    g_dataPath w1 = g_dataPath w.
Proof. eexists. rewrite nativeCleanup_run. repeat split. Qed.

(** C5, as stated, fails: after [nativeInit "/data/voices"] and then
    [nativeCleanup] the handle still holds the path, so it is not the
    initial handle. *)
Lemma cleanup_resets_handle_counterexample :
  exists w w1 : World,
    run (nativeInit "/data/voices") initial_world = inr (JNI_TRUE, w) /\
    run nativeCleanup w = inr (tt, w1) /\
    g_dataPath w1 = "/data/voices" /\
    g_dataPath initial_world = "" /\
    engine_handle w1 <> engine_handle initial_world.
Proof.
  do 2 eexists.
  split; [reflexivity |]. split; [reflexivity |].
  split; [reflexivity |]. split; [reflexivity |].
  cbv. discriminate.
Qed.

End Cleanup.

(** ** Conversion *)

Section Conversion.

(** C6.  [nativePhonemize] changes neither global: from every process
    image and for every text and voice it returns with the readiness
    flag and the data path it found, so a ready bridge stays ready. *)
Theorem phonemize_keeps_handle (w : World) (text voice : jstring) :
  exists w1 : World,
    run (nativePhonemize text voice) w = inr (nullptr, w1) /\
    g_initialized w1 = g_initialized w /\
    g_dataPath w1 = g_dataPath w /\
    engine_handle w1 = engine_handle w.
Proof.
  destruct (nativePhonemize_run w text voice) as (w1 & Hrun & Hh & _).
  exists w1. split; [exact Hrun |].
  injection Hh as Hflag Hpath. repeat split; try assumption.
  unfold engine_handle. now rewrite Hflag, Hpath.
Qed.

(** C7.  The scenario of the specification, from the initial image:
    initialize answers true, the conversion answers null, cleanup
    returns, the conversion answers null again. *)
Theorem scenario_voices :
  run (session [CallInit "/data/voices";
                CallPhonemize "hello" "en-us";
                CallCleanup;
                CallPhonemize "hello" "en-us"]) initial_world =
  inr ([RetBoolean true; RetString None; RetVoid; RetString None],
       {| g_initialized := false;
          g_dataPath := "/data/voices";
          logcat :=
            [mkLogLine ANDROID_LOG_INFO "EspeakJNI"
               "Espeak mock init with data path: %s" ["/data/voices"];
             mkLogLine ANDROID_LOG_INFO "EspeakJNI"
               "Mock phonemize: text='%s', voice='%s'" ["hello"; "en-us"];
             mkLogLine ANDROID_LOG_INFO "EspeakJNI" "Espeak cleanup" [];
             mkLogLine ANDROID_LOG_ERROR "EspeakJNI"
               "Espeak not initialized" []];
          jni_next := 3;
          jni_live := [] |}).
Proof. reflexivity. Qed.

End Conversion.

(** ** No fatal outcome *)

Section Totality.

Lemma dispatch_errors (w : World) (c : Call) :
  exists w1 : World,
    run (dispatch c) w = inr (answer c, w1) /\
    (error_lines w1 = error_lines w \/ answer c = RetString nullptr).
Proof.
  destruct c as [dataPath | text voice |]; cbn [dispatch answer].
  - eexists. rewrite (run_bind _ _ _ _ _ (nativeInit_run w dataPath)).
    split; [reflexivity |]. left.
    unfold error_lines. cbn [logcat]. rewrite filter_app. cbn.
    apply app_nil_r.
  - destruct (nativePhonemize_run w text voice) as (w1 & Hrun & _).
    exists w1. rewrite (run_bind _ _ _ _ _ Hrun).
    split; [reflexivity | now right].
  - eexists. rewrite (run_bind _ _ _ _ _ (nativeCleanup_run w)).
    split; [reflexivity |]. left.
    unfold error_lines. cbn [logcat]. rewrite filter_app. cbn.
    apply app_nil_r.
Qed.

(** *** Over a JVM that may refuse *)

Lemma run_jvm_bind {A B : Type} (c : hosted A) (k : A -> hosted B)
    (a : A) (j j1 : Jvm) :
  run_jvm c j = inr (a, j1) ->
  run_jvm (x <- c ;; k x) j = run_jvm (k a) j1.
Proof. unfold run_jvm. cbn. intros ->. reflexivity. Qed.

Lemma obliging_tl (w w1 : World) (outs : list bool) :
  jvm_obliging (mkJvm w outs) = true ->
  jvm_obliging (mkJvm w1 (tl outs)) = true.
Proof.
  unfold jvm_obliging. cbn. destruct outs as [| ok rest]; cbn; [easy |].
  intros H. now apply andb_true_iff in H.
Qed.

(** With its string there and the JVM obliging, [nativeInit] over the
    JVM does to the process image what [nativeInit] does. *)
Lemma nativeInit_on_jvm (j : Jvm) (dataPath : jstring) :
  jvm_obliging j = true ->
  exists w1 : World,
    run (nativeInit dataPath) (image j) = inr (JNI_TRUE, w1) /\
    run_jvm (OnJvm.nativeInit (Some dataPath)) j =
      inr (JNI_TRUE, mkJvm w1 (tl (utf_outcomes j))).
Proof.
  intros Hob. eexists. split; [apply nativeInit_run |].
  destruct j as [w outs]. unfold jvm_obliging in Hob. cbn in Hob.
  destruct outs as [| [|] rest]; try discriminate;
    unfold run_jvm, OnJvm.nativeInit; cbn;
    rewrite Nat.eqb_refl; reflexivity.
Qed.

Lemma nativePhonemize_on_jvm_not_ready
    (j : Jvm) (text voice : option jstring) :
  g_initialized (image j) = false ->
  run_jvm (OnJvm.nativePhonemize text voice) j =
    inr (nullptr,
         mkJvm (add_log (mkLogLine ANDROID_LOG_ERROR TAG
                           "Espeak not initialized" []) (image j))
               (utf_outcomes j)).
Proof.
  intros Hflag. destruct j as [w outs]. cbn in Hflag.
  unfold run_jvm, OnJvm.nativePhonemize. cbn. rewrite Hflag. reflexivity.
Qed.

Lemma nativePhonemize_on_jvm (j : Jvm) (text voice : jstring) :
  jvm_obliging j = true ->
  exists w1 : World,
    run (nativePhonemize text voice) (image j) = inr (nullptr, w1) /\
    run_jvm (OnJvm.nativePhonemize (Some text) (Some voice)) j =
      inr (nullptr,
           mkJvm w1 (if g_initialized (image j)
                     then tl (tl (utf_outcomes j))
                     else utf_outcomes j)).
Proof.
  intros Hob. destruct (g_initialized (image j)) eqn:Hflag.
  - eexists. split.
    + unfold nativePhonemize. rewrite (run_bind _ _ _ _ _
        (nativePhonemize_body_run_ready (image j) text voice Hflag)).
      reflexivity.
    + destruct j as [w outs]. unfold jvm_obliging in Hob.
      cbn in Hob, Hflag.
      assert (Hne : Nat.eqb (jni_next w) (S (jni_next w)) = false)
        by (apply Nat.eqb_neq; lia).
      destruct outs as [| [|] [| [|] rest]]; try discriminate;
        unfold run_jvm, OnJvm.nativePhonemize; cbn;
        rewrite Hflag; cbn;
        rewrite Hne, Nat.eqb_refl; cbn; rewrite Nat.eqb_refl; cbn;
        unfold set_jni, add_log; cbn; rewrite Hflag; reflexivity.
  - eexists. split.
    + unfold nativePhonemize. rewrite (run_bind _ _ _ _ _
        (nativePhonemize_body_run_not_ready (image j) text voice Hflag)).
      reflexivity.
    + apply nativePhonemize_on_jvm_not_ready. exact Hflag.
Qed.

Lemma dispatch_on_jvm (j : Jvm) (c : Call) :
  jvm_obliging j = true ->
  exists (j1 : Jvm) (w1 : World),
    run (dispatch c) (image j) = inr (answer c, w1) /\
    run_jvm (OnJvm.dispatch (OnJvm.of_call c)) j = inr (answer c, j1) /\
    image j1 = w1 /\
    jvm_obliging j1 = true.
Proof.
  intros Hob. destruct j as [w outs].
  destruct c as [dataPath | text voice |];
    cbn [dispatch OnJvm.dispatch OnJvm.of_call answer image].
  - destruct (nativeInit_on_jvm (mkJvm w outs) dataPath Hob)
      as (w1 & Hrun & Hjvm).
    do 2 eexists. cbn [image] in Hrun.
    rewrite (run_bind _ _ _ _ _ Hrun), (run_jvm_bind _ _ _ _ _ Hjvm).
    repeat split. now apply (obliging_tl w).
  - destruct (nativePhonemize_on_jvm (mkJvm w outs) text voice Hob)
      as (w1 & Hrun & Hjvm).
    do 2 eexists. cbn [image] in Hrun.
    rewrite (run_bind _ _ _ _ _ Hrun), (run_jvm_bind _ _ _ _ _ Hjvm).
    repeat split. cbn [image utf_outcomes].
    destruct (g_initialized w).
    + apply (obliging_tl w). now apply (obliging_tl w).
    + exact Hob.
  - do 2 eexists. rewrite (run_bind _ _ _ _ _ (nativeCleanup_run w)).
    repeat split. exact Hob.
Qed.

Lemma session_on_jvm (cs : list Call) :
  forall j : Jvm,
    jvm_obliging j = true ->
    exists (jn : Jvm) (wn : World),
      run (session cs) (image j) = inr (map answer cs, wn) /\
      run_jvm (OnJvm.session (map OnJvm.of_call cs)) j =
        inr (map answer cs, jn) /\
      image jn = wn.
Proof.
  induction cs as [| c rest IH]; intros j Hob.
  - exists j, (image j). repeat split.
  - destruct (dispatch_on_jvm j c Hob) as (j1 & w1 & Hc & Hjc & Him & Hob1).
    destruct (IH j1 Hob1) as (jn & wn & Hrest & Hjrest & Himn).
    exists jn, wn. cbn [session OnJvm.session map].
    rewrite Him in Hrest.
    rewrite (run_bind _ _ _ _ _ Hc), (run_bind _ _ _ _ _ Hrest).
    rewrite (run_jvm_bind _ _ _ _ _ Hjc), (run_jvm_bind _ _ _ _ _ Hjrest).
    repeat split. exact Himn.
Qed.

(** C8, as the code has it.  [nativeCleanup] returns from every state
    of the host, and so does [nativePhonemize] on a bridge that is not
    ready, whatever its arguments, null references included: neither
    asks the JVM for a string.  When every string argument is there and
    the JVM hands out the characters it is asked for, every call
    returns with the answer [answer] fixes ([JNI_TRUE], null, nothing),
    logs an error only when it answers null, and has given back every
    buffer it obtained; and a session of such calls answers every one
    of them and leaves the process image the natives of the first part
    leave. *)
Theorem natives_return_when_strings_handed_out
    (j : Jvm) (c : Call) (cs : list Call) (text voice : option jstring) :
  (exists j1 : Jvm, run_jvm OnJvm.nativeCleanup j = inr (tt, j1)) /\
  (g_initialized (image j) = false ->
   exists j1 : Jvm,
     run_jvm (OnJvm.nativePhonemize text voice) j = inr (nullptr, j1)) /\
  (jvm_obliging j = true ->
   (exists j1 : Jvm,
      run_jvm (OnJvm.dispatch (OnJvm.of_call c)) j = inr (answer c, j1) /\
      (error_lines (image j1) = error_lines (image j) \/
       answer c = RetString nullptr) /\
      jni_live (image j1) = jni_live (image j)) /\
   (exists (jn : Jvm) (wn : World),
      run_jvm (OnJvm.session (map OnJvm.of_call cs)) j =
        inr (map answer cs, jn) /\
      run (session cs) (image j) = inr (map answer cs, wn) /\
      image jn = wn /\
      jni_live (image jn) = jni_live (image j))).
Proof.
  split; [eexists; reflexivity |].
  split.
  - intros Hflag. eexists.
    apply nativePhonemize_on_jvm_not_ready. exact Hflag.
  - intros Hob. split.
    + destruct (dispatch_on_jvm j c Hob) as (j1 & w1 & Hc & Hjc & Him & _).
      destruct (dispatch_errors (image j) c) as (w1' & Hc' & Herr).
      destruct (dispatch_run (image j) c) as (w1'' & Hc'' & _ & Hlive).
      rewrite Hc in Hc', Hc''.
      injection Hc' as <-. injection Hc'' as <-.
      exists j1. rewrite Him. repeat split; assumption.
    + destruct (session_on_jvm cs j Hob) as (jn & wn & Hrun & Hjrun & Him).
      destruct (session_run cs (image j)) as (wn' & Hrun' & _ & Hlive).
      rewrite Hrun in Hrun'. injection Hrun' as <-.
      exists jn, wn. rewrite Him. repeat split; assumption.
Qed.

Lemma natives_return_when_strings_handed_out_witness :
  jvm_obliging (mkJvm initial_world [true; true; true]) = true /\
  exists (jn : Jvm) (wn : World),
    run_jvm (OnJvm.session
               (map OnJvm.of_call
                  [CallInit "/data/voices";
                   CallPhonemize "hello" "en-us";
                   CallCleanup]))
            (mkJvm initial_world [true; true; true]) =
      inr ([RetBoolean JNI_TRUE; RetString nullptr; RetVoid], jn) /\
    run (session [CallInit "/data/voices";
                  CallPhonemize "hello" "en-us";
                  CallCleanup]) initial_world =
      inr ([RetBoolean JNI_TRUE; RetString nullptr; RetVoid], wn) /\
    image jn = wn /\
    jni_live (image jn) = jni_live initial_world.
Proof.
  split; [reflexivity |].
  apply (proj2 (proj2 (proj2
    (natives_return_when_strings_handed_out
       (mkJvm initial_world [true; true; true])
       CallCleanup
       [CallInit "/data/voices"; CallPhonemize "hello" "en-us";
        CallCleanup]
       None None)) eq_refl)).
Defined.

(** C8, as stated, fails.  [nativeInit] does not return when it is
    given the null reference, nor when the JVM has no buffer for the
    characters of "/data/voices"; on a bridge made ready,
    [nativePhonemize] does not return when its text is the null
    reference, nor when the JVM has no buffer for the text. *)
Lemma natives_fatal_counterexample :
  run_jvm (OnJvm.nativeInit None) (mkJvm initial_world []) =
    inl Cxx_string_from_null /\
  run_jvm (OnJvm.nativeInit (Some "/data/voices"))
          (mkJvm initial_world [false]) =
    inl Cxx_string_from_null /\
  run_jvm (OnJvm.session
             [OnJvm.JInit (Some "/data/voices");
              OnJvm.JPhonemize None (Some "en-us")])
          (mkJvm initial_world []) =
    inl Cxx_string_from_null /\
  run_jvm (OnJvm.session
             [OnJvm.JInit (Some "/data/voices");
              OnJvm.JPhonemize (Some "hello") (Some "en-us")])
          (mkJvm initial_world [true; false]) =
    inl Cxx_string_from_null.
Proof. repeat split. Qed.

End Totality.

(** ** The fallback text *)

Section Fallback.

(** In a ready image the local [result] is the text as it came in. *)
Lemma result_is_text (w : World) (text voice : jstring) :
  g_initialized w = true ->
  exists w1 : World,
    run (nativePhonemize_body text voice) w =
      inr ({| result := Some text; returned := nullptr |}, w1).
Proof.
  intros Hflag. eexists.
  apply (nativePhonemize_body_run_ready w text voice Hflag).
Qed.

(** C9, on the code.  In the ready image [nativeInit "/data/voices"]
    leaves, [nativePhonemize "Hello" "en-us"] returns null with its
    local [result] holding "Hello", the text as it came in; the
    lowercased text is "hello".  Nothing is lowercased. *)
Theorem fallback_text_not_lowercased :
  exists w w1 : World,
    run (nativeInit "/data/voices") initial_world = inr (JNI_TRUE, w) /\
    run (nativePhonemize_body "Hello" "en-us") w =
      inr ({| result := Some "Hello"; returned := nullptr |}, w1) /\
    lowercased "Hello" = "hello" /\
    "Hello" <> lowercased "Hello".
Proof.
  do 2 eexists.
  split; [reflexivity |]. split; [reflexivity |].
  split; [reflexivity |]. cbv. discriminate.
Qed.

End Fallback.

(** ** The data path *)

Section DataPath.

(** C10.  Only [nativeInit] writes the data path: a conversion leaves
    it, a cleanup leaves it, any session [cs] without an initialize
    leaves it, and after [nativeInit dataPath] followed by such a
    session the path is [dataPath]. *)
Theorem path_written_only_by_init
    (w : World) (cs : list Call) (dataPath text voice : jstring) :
  no_init cs = true ->
  (exists w1 : World,
     run (nativePhonemize text voice) w = inr (nullptr, w1) /\
     g_dataPath w1 = g_dataPath w) /\
  (exists w1 : World,
     run nativeCleanup w = inr (tt, w1) /\
     g_dataPath w1 = g_dataPath w) /\
  (exists wn : World,
     run (session cs) w = inr (map answer cs, wn) /\
     g_dataPath wn = g_dataPath w) /\
  (exists wn : World,
     run (session (CallInit dataPath :: cs)) w =
       inr (map answer (CallInit dataPath :: cs), wn) /\
     g_dataPath wn = dataPath).
Proof.
  intros Hno. repeat split.
  - destruct (nativePhonemize_run w text voice) as (w1 & Hrun & Hh & _).
    exists w1. split; [exact Hrun |].
    change (g_dataPath w1) with (snd (engine_handle w1)).
    now rewrite Hh.
  - eexists. rewrite nativeCleanup_run. split; reflexivity.
  - destruct (session_run cs w) as (wn & Hrun & Hh & _).
    exists wn. split; [exact Hrun |].
    change (g_dataPath wn) with (snd (engine_handle wn)).
    rewrite Hh. now apply fold_no_init.
  - destruct (session_run (CallInit dataPath :: cs) w)
      as (wn & Hrun & Hh & _).
    exists wn. split; [exact Hrun |].
    change (g_dataPath wn) with (snd (engine_handle wn)).
    rewrite Hh. cbn [fold_left handle_after].
    now rewrite (proj1 (fold_no_init cs (true, dataPath) Hno)).
Qed.

Lemma path_written_only_by_init_witness :
  no_init [CallPhonemize "hello" "en-us"; CallCleanup;
           CallPhonemize "hello" "en-us"; CallCleanup] = true /\
  exists wn : World,
    run (session [CallInit "/data/voices";
                  CallPhonemize "hello" "en-us"; CallCleanup;
                  CallPhonemize "hello" "en-us"; CallCleanup])
        initial_world =
      inr ([RetBoolean JNI_TRUE; RetString nullptr; RetVoid;
            RetString nullptr; RetVoid], wn) /\
    g_dataPath wn = "/data/voices".
Proof.
  split; [reflexivity |].
  apply (path_written_only_by_init initial_world
           [CallPhonemize "hello" "en-us"; CallCleanup;
            CallPhonemize "hello" "en-us"; CallCleanup]
           "/data/voices" "hello" "en-us").
  reflexivity.
Defined.

End DataPath.

(** ** Whole sessions *)

Section WholeSessions.

Lemma fold_no_cleanup (cs : list Call) :
  forall h : bool * string,
    no_cleanup cs = true ->
    fst h = true ->
    fst (fold_left handle_after cs h) = true.
Proof.
  induction cs as [| c rest IH]; intros h Hno Hready; [exact Hready |].
  cbn in Hno. apply andb_true_iff in Hno as [Hc Hrest].
  cbn [fold_left]. apply IH; [exact Hrest |].
  destruct c as [dataPath | text voice |]; cbn in Hc |- *;
    [reflexivity | exact Hready | discriminate].
Qed.

(** X1.  A ready bridge stays ready until a cleanup: from a process
    image whose flag is true, any session without a [nativeCleanup]
    (conversions, further initializes) is answered call by call and ends
    with the flag still true. *)
Theorem ready_until_cleanup (w : World) (cs : list Call) :
  g_initialized w = true ->
  no_cleanup cs = true ->
  exists wn : World,
    run (session cs) w = inr (map answer cs, wn) /\
    g_initialized wn = true.
Proof.
  intros Hready Hno.
  destruct (session_run cs w) as (wn & Hrun & Hh & _).
  exists wn. split; [exact Hrun |].
  change (g_initialized wn) with (fst (engine_handle wn)).
  rewrite Hh. now apply fold_no_cleanup.
Qed.

Lemma ready_until_cleanup_witness :
  (g_initialized (set_g_initialized true initial_world) = true /\
   no_cleanup [CallPhonemize "hello" "en-us"; CallInit "/data/v2";
               CallPhonemize "hi" "vi"] = true) /\
  exists wn : World,
    run (session [CallPhonemize "hello" "en-us"; CallInit "/data/v2";
                  CallPhonemize "hi" "vi"])
        (set_g_initialized true initial_world) =
      inr ([RetString nullptr; RetBoolean JNI_TRUE; RetString nullptr],
           wn) /\
    g_initialized wn = true.
Proof.
  split; [split; reflexivity |].
  apply (ready_until_cleanup (set_g_initialized true initial_world)
           [CallPhonemize "hello" "en-us"; CallInit "/data/v2";
            CallPhonemize "hi" "vi"]); reflexivity.
Defined.

Lemma fold_lifecycle (cs : list Call) :
  forall h : bool * string,
    fold_left handle_after (lifecycle cs) h = fold_left handle_after cs h.
Proof.
  induction cs as [| c rest IH]; intros h; [reflexivity |].
  destruct c as [dataPath | text voice |]; cbn; apply IH.
Qed.

(** X2.  Conversions are transparent to the engine handle: a session
    and the same session with every [nativePhonemize] taken out both run
    to the end, and they end with the same readiness flag and the same
    data path. *)
Theorem conversions_transparent (w : World) (cs : list Call) :
  exists wn wl : World,
    run (session cs) w = inr (map answer cs, wn) /\
    run (session (lifecycle cs)) w = inr (map answer (lifecycle cs), wl) /\
    g_initialized wn = g_initialized wl /\
    g_dataPath wn = g_dataPath wl.
Proof.
  destruct (session_run cs w) as (wn & Hrun & Hh & _).
  destruct (session_run (lifecycle cs) w) as (wl & Hrunl & Hhl & _).
  exists wn, wl. split; [exact Hrun |]. split; [exact Hrunl |].
  rewrite fold_lifecycle in Hhl. rewrite <- Hh in Hhl.
  injection Hhl as Hflag Hpath. now split.
Qed.

(** X3.  An initialize wipes the history of the handle: whatever the two
    process images a session that starts with [nativeInit dataPath] is
    run from, it ends with the same readiness flag and the same data
    path. *)
Theorem init_erases_history
    (w w' : World) (dataPath : jstring) (cs : list Call) :
  exists wn wn' : World,
    run (session (CallInit dataPath :: cs)) w =
      inr (map answer (CallInit dataPath :: cs), wn) /\
    run (session (CallInit dataPath :: cs)) w' =
      inr (map answer (CallInit dataPath :: cs), wn') /\
    g_initialized wn = g_initialized wn' /\
    g_dataPath wn = g_dataPath wn'.
Proof.
  destruct (session_run (CallInit dataPath :: cs) w) as (wn & Hrun & Hh & _).
  destruct (session_run (CallInit dataPath :: cs) w')
    as (wn' & Hrun' & Hh' & _).
  exists wn, wn'. split; [exact Hrun |]. split; [exact Hrun' |].
  cbn [fold_left handle_after] in Hh, Hh'. rewrite <- Hh' in Hh.
  injection Hh as Hflag Hpath. now split.
Qed.

End WholeSessions.

(** ** The log *)

Section Log.

Lemma nativePhonemize_log (w : World) (text voice : jstring) :
  exists (w1 : World) (l : LogLine),
    run (nativePhonemize text voice) w = inr (nullptr, w1) /\
    logcat w1 = (logcat w ++ [l])%list /\
    is_error l = negb (g_initialized w) /\
    g_initialized w1 = g_initialized w.
Proof.
  unfold nativePhonemize.
  destruct (g_initialized w) eqn:Hflag.
  - do 2 eexists. rewrite (run_bind _ _ _ _ _
      (nativePhonemize_body_run_ready w text voice Hflag)).
    repeat split.
  - do 2 eexists. rewrite (run_bind _ _ _ _ _
      (nativePhonemize_body_run_not_ready w text voice Hflag)).
    split; [reflexivity |]. split; [reflexivity |].
    split; [reflexivity | exact Hflag].
Qed.

Lemma dispatch_log (w : World) (c : Call) :
  exists (w1 : World) (l : LogLine),
    run (dispatch c) w = inr (answer c, w1) /\
    logcat w1 = (logcat w ++ [l])%list /\
    is_error l = is_phonemize c && negb (g_initialized w) /\
    g_initialized w1 = fst (handle_after (engine_handle w) c).
Proof.
  destruct c as [dataPath | text voice |]; cbn [dispatch answer].
  - do 2 eexists. rewrite (run_bind _ _ _ _ _ (nativeInit_run w dataPath)).
    repeat split.
  - destruct (nativePhonemize_log w text voice)
      as (w1 & l & Hrun & Hlog & Herr & Hflag).
    exists w1, l. rewrite (run_bind _ _ _ _ _ Hrun).
    repeat split; assumption.
  - do 2 eexists. rewrite (run_bind _ _ _ _ _ (nativeCleanup_run w)).
    repeat split.
Qed.

Lemma session_log (cs : list Call) :
  forall w : World,
  exists (wn : World) (lines : list LogLine),
    run (session cs) w = inr (map answer cs, wn) /\
    logcat wn = (logcat w ++ lines)%list /\
    length lines = length cs /\
    length (filter is_error lines) = rejected (g_initialized w) cs.
Proof.
  induction cs as [| c rest IH]; intros w.
  - exists w, []. split; [reflexivity |].
    split; [symmetry; apply app_nil_r | split; reflexivity].
  - destruct (dispatch_log w c) as (w1 & l & Hc & Hlog1 & Herr & Hflag).
    destruct (IH w1) as (wn & lines & Hrest & Hlog & Hlen & Hrej).
    exists wn, (l :: lines). cbn [session map].
    rewrite (run_bind _ _ _ _ _ Hc), (run_bind _ _ _ _ _ Hrest).
    split; [reflexivity |].
    split; [rewrite Hlog, Hlog1, <- app_assoc; reflexivity |].
    split; [cbn; now rewrite Hlen |].
    cbn [filter]. rewrite Herr. rewrite Hflag in Hrej.
    destruct c as [dataPath | text voice |]; cbn in Hrej |- *;
      try exact Hrej.
    destruct (g_initialized w); cbn; now rewrite Hrej.
Qed.

(** X4.  The log only grows, one line a call: a session of any calls
    leaves every line that was in the log where it was and adds exactly
    as many lines as there were calls. *)
Theorem log_grows_by_one_per_call (w : World) (cs : list Call) :
  exists (wn : World) (lines : list LogLine),
    run (session cs) w = inr (map answer cs, wn) /\
    logcat wn = (logcat w ++ lines)%list /\
    length lines = length cs.
Proof.
  destruct (session_log cs w) as (wn & lines & Hrun & Hlog & Hlen & _).
  now exists wn, lines.
Qed.

(** X5.  Error diagnostics count the conversions turned away: over a
    session the number of error-priority lines in the log goes up by the
    number of [nativePhonemize] calls that arrive while the readiness
    flag is false; initialize, cleanup and conversions on a ready bridge
    log no error. *)
Theorem errors_count_rejected (w : World) (cs : list Call) :
  exists wn : World,
    run (session cs) w = inr (map answer cs, wn) /\
    length (error_lines wn) =
      length (error_lines w) + rejected (g_initialized w) cs.
Proof.
  destruct (session_log cs w) as (wn & lines & Hrun & Hlog & _ & Hrej).
  exists wn. split; [exact Hrun |].
  unfold error_lines. rewrite Hlog, filter_app, length_app.
  now rewrite Hrej.
Qed.

Lemma rejected_ready (cs : list Call) :
  no_cleanup cs = true -> rejected true cs = 0.
Proof.
  induction cs as [| c rest IH]; intros Hno; [reflexivity |].
  cbn in Hno. apply andb_true_iff in Hno as [Hc Hrest].
  destruct c as [dataPath | text voice |]; cbn in Hc |- *;
    [now apply IH | now apply IH | discriminate].
Qed.

(** X6.  Between an initialize and the next cleanup nothing is logged at
    error priority: from a process image whose flag is true, a session
    without a [nativeCleanup] leaves the error lines of the log exactly
    as they were. *)
Theorem no_error_while_ready (w : World) (cs : list Call) :
  g_initialized w = true ->
  no_cleanup cs = true ->
  exists wn : World,
    run (session cs) w = inr (map answer cs, wn) /\
    error_lines wn = error_lines w.
Proof.
  intros Hready Hno.
  destruct (session_log cs w) as (wn & lines & Hrun & Hlog & _ & Hrej).
  exists wn. split; [exact Hrun |].
  rewrite Hready, (rejected_ready cs Hno) in Hrej.
  apply length_zero_iff_nil in Hrej.
  unfold error_lines. rewrite Hlog, filter_app, Hrej. apply app_nil_r.
Qed.

Lemma no_error_while_ready_witness :
  (g_initialized (set_g_initialized true initial_world) = true /\
   no_cleanup [CallPhonemize "Hello" "en-us"; CallInit "/data/v2";
               CallPhonemize "" ""] = true) /\
  exists wn : World,
    run (session [CallPhonemize "Hello" "en-us"; CallInit "/data/v2";
                  CallPhonemize "" ""])
        (set_g_initialized true initial_world) =
      inr ([RetString nullptr; RetBoolean JNI_TRUE; RetString nullptr],
           wn) /\
    error_lines wn = error_lines (set_g_initialized true initial_world).
Proof.
  split; [split; reflexivity |].
  apply (no_error_while_ready (set_g_initialized true initial_world)
           [CallPhonemize "Hello" "en-us"; CallInit "/data/v2";
            CallPhonemize "" ""]); reflexivity.
Defined.

End Log.
